(** * Sheet: gesture resolution and snap-point arithmetic of [src/sheet.tsx]

    A shallow embedding of the [Sheet] component's render-time snap-point
    normalisation, of its drag handlers [handleDrag] and [handleDragEnd], of
    the imperative [snapTo] handle and of the open/close snap effect.

    Numbers.  The component computes on JavaScript numbers.  They are
    modelled as exact rationals [Q]: comparisons, [+], [-], [*],
    [Math.max], [Math.abs] and [Math.round] are the exact operations, and
    [===] on numbers is numeric equality [Qeq_bool].  Every concrete input
    evaluated below is a dyadic rational of small magnitude, on which the
    double-precision operations are exact as well.  Indices handed to
    [onSnap] and to [snapTo] are integers [Z] ([indexOf] answers [-1]).

    Effects.  The motion values [y] and [indicatorRotation] are fields of a
    [World]; the host callbacks [onClose] and [onSnap] and the animation
    request [animate] are opaque collaborators and are recorded, in call
    order, in the world's [trace].  A handler is a computation in a small
    state-and-exception monad [M]: dereferencing the empty [sheetRef] raises
    a [TypeError], as it does in the source. *)

From Stdlib Require Import List ZArith QArith Qround Qabs Qminmax Lia Lqa Bool.
Import ListNotations.

Local Open Scope Q_scope.

(** ** JavaScript number primitives *)

Module Js.

(** [a < b] on numbers. *)
Definition ltb (a b : Q) : bool := negb (Qle_bool b a).

(** [a <= b] on numbers. *)
Definition leb (a b : Q) : bool := Qle_bool a b.

(** [a > b] and [a >= b]. *)
Definition gtb (a b : Q) : bool := ltb b a.
Definition geb (a b : Q) : bool := leb b a.

(** [Math.round]: the nearest integer, halves going up. *)
Definition round (x : Q) : Z := Qfloor (x + (1 # 2)).

(** [Math.abs]. *)
Definition abs (x : Q) : Q := Qabs x.

(** [Math.max]. *)
Definition max (a b : Q) : Q := Qmax a b.

(** [a / b > c] for a finite [c]: when [b] is zero the quotient is
    [+Infinity] for a positive [a] and [NaN] or [-Infinity] otherwise, so
    the comparison holds exactly when [a] is positive. *)
Definition div_gtb (a b c : Q) : bool :=
  if Qeq_bool b 0 then gtb a 0 else gtb (a / b) c.

(** [xs[i]] for an integer [i]: [undefined] ([None]) out of range. *)
Definition index {A} (xs : list A) (i : Z) : option A :=
  if (i <? 0)%Z then None else nth_error xs (Z.to_nat i).

(** [xs.indexOf(v)] from position [k] on: first position holding a number
    equal to [v], or [-1]. *)
Fixpoint indexOf_from (k : Z) (xs : list Q) (v : Q) : Z :=
  match xs with
  | [] => (-1)%Z
  | x :: xs' => if Qeq_bool x v then k else indexOf_from (k + 1)%Z xs' v
  end.

Definition indexOf (xs : list Q) (v : Q) : Z := indexOf_from 0%Z xs v.

End Js.

(** ** Render: snap-point normalisation (source lines 46-51) *)

(** The callback of [snapPoints.map]. *)
Definition normalizePoint (windowHeight point : Q) : Q :=
  if Js.gtb point 0 && Js.leb point 1 then point * windowHeight
  else if Js.ltb point 0 then windowHeight + point
  else point.

Definition normalize (windowHeight : Q) (snapPoints : list Q) : list Q :=
  map (normalizePoint windowHeight) snapPoints.

(** ** The mutable cells and the collaborators *)

Record SpringConfig : Type := mkSpring { stiffness : Q; damping : Q; mass : Q }.

(** The default of the [springConfig] prop (source line 31). *)
Definition defaultSpring : SpringConfig :=
  {| stiffness := 300; damping := 30; mass := 2 # 10 |}.

(** Calls that leave the component, in the order they are made. *)
Inductive Event : Type :=
| OnClose                                         (* onClose() *)
| OnSnap (snapIndex : Z)                          (* onSnap(snapIndex) *)
| Animate (target : Q) (spring : SpringConfig).   (* animate(y, target, {type: 'spring', ...spring}) *)

(** [sheetRef] is [None] while [sheetRef.current] is [null]; otherwise it
    holds the [height] that [getBoundingClientRect()] of the panel element
    reports. *)
Record World : Type := mkWorld {
  y : Q;
  indicatorRotation : Q;
  sheetRef : option Q;
  trace : list Event
}.

Inductive Error : Type := TypeError.

Inductive Outcome (A : Type) : Type :=
| Returned (a : A) (w : World)
| Threw (e : Error) (w : World).

Arguments Returned {A} a w.
Arguments Threw {A} e w.

Definition M (A : Type) : Type := World -> Outcome A.

Definition ret {A} (a : A) : M A := fun w => Returned a w.

Definition bind {A B} (c : M A) (k : A -> M B) : M B :=
  fun w => match c w with
           | Returned a w' => k a w'
           | Threw e w' => Threw e w'
           end.

Definition throw {A} (e : Error) : M A := fun w => Threw e w.

Declare Scope sheet_scope.
Delimit Scope sheet_scope with sheet.
Notation "x <- c ;; k" := (bind c (fun x => k))
  (at level 61, c at next level, right associativity) : sheet_scope.
Notation "c ;; k" := (bind c (fun _ => k))
  (at level 61, right associativity) : sheet_scope.
Local Open Scope sheet_scope.

(** [y.get()] and [y.set(v)]. *)
Definition getY : M Q := fun w => Returned (y w) w.
Definition setY (v : Q) : M unit :=
  fun w => Returned tt (mkWorld v (indicatorRotation w) (sheetRef w) (trace w)).

(** [indicatorRotation.set(v)]. *)
Definition setIndicator (v : Q) : M unit :=
  fun w => Returned tt (mkWorld (y w) v (sheetRef w) (trace w)).

(** A call to a collaborator. *)
Definition emit (e : Event) : M unit :=
  fun w => Returned tt (mkWorld (y w) (indicatorRotation w) (sheetRef w) (trace w ++ [e])).

(** [(sheetRef.current as HTMLDivElement).getBoundingClientRect().height]:
    the cast checks nothing, and the member access on [null] throws. *)
Definition measure : M Q :=
  fun w => match sheetRef w with
           | Some h => Returned h w
           | None => Threw TypeError w
           end.

Definition when (b : bool) (c : M unit) : M unit := if b then c else ret tt.

(** ** Props, as the render leaves them *)

(** [onSnap] is optional: the field says whether the host supplied it.
    [onClose] is always supplied.  [snapPoints] is [None] when the prop is
    absent. *)
Record Props : Type := mkProps {
  isOpen : bool;
  onSnap : bool;
  snapPoints : option (list Q);
  initialSnap : Z;
  springConfig : SpringConfig
}.

(** Source lines 46-51: the destructured [snapPoints] is reassigned to its
    normalised image; this is what every closure of the render captures.
    [windowHeight] is the reading of [useWindowHeight()].  The
    [console.assert] on the ordering that follows only logs. *)
Definition render (windowHeight : Q) (p : Props) : Props :=
  mkProps (isOpen p) (onSnap p)
          (option_map (normalize windowHeight) (snapPoints p))
          (initialSnap p) (springConfig p).

(** ** [getClosest] *)

(** Modelled from the spec: the scan behind [getClosest], which keeps the
    candidate seen so far unless the current one is strictly closer to the
    goal, so that of several minimal candidates the first one wins. *)
Fixpoint closestFrom (goal prev : Q) (rest : list Q) : Q :=
  match rest with
  | [] => prev
  | curr :: rest' =>
      closestFrom goal
        (if Js.ltb (Qabs (curr - goal)) (Qabs (prev - goal)) then curr else prev)
        rest'
  end.

(** Modelled from the spec: [getClosest] of [./utils], which the sheet
    imports, is not among the sources.  Per the release resolver's contract
    it chooses the candidate numerically closest to the goal, the first of
    the minimal ones in sequence order.  With no candidate there is nothing
    to choose: that case is [None]. *)
Definition getClosest (nums : list Q) (goal : Q) : option Q :=
  match nums with
  | [] => None
  | n :: rest => Some (closestFrom goal n rest)
  end.

(** ** Drag handlers (source lines 60-100) *)

(** [handleDrag]: [velocity] is the reading of [y.getVelocity()], [delta_y]
    is [delta.y] of the pan event. *)
Definition handleDrag (velocity delta_y : Q) : M unit :=
  when (Js.gtb velocity 0) (setIndicator 10) ;;
  when (Js.ltb velocity 0) (setIndicator (-10)) ;;
  c <- getY ;;
  setY (Js.max (c + delta_y) 0).

(** Source lines 88-89: the index handed to [onSnap] after a release.  On an
    empty array [snapPoints[0]] is [undefined], the arithmetic yields [NaN],
    and [indexOf] never finds [NaN]. *)
Definition recoverIndex (snapPoints : list Q) (snapTo : Q) : Z :=
  match snapPoints with
  | [] => (-1)%Z
  | first :: _ =>
      let snapValue := Js.abs (inject_Z (Js.round (first - snapTo))) in
      Js.indexOf snapPoints snapValue
  end.

(** Source lines 78-82: the target of a release.  On an empty candidate
    array [getClosest] has nothing to choose, and the release stops there. *)
Definition resolveTarget (snapPoints : option (list Q)) (contentHeight yv : Q)
  : M Q :=
  match snapPoints with
  | Some sps =>
      match getClosest (map (fun p => contentHeight - p) sps) yv with
      | Some t => ret t
      | None => throw TypeError
      end
  | None =>
      ret (if Js.div_gtb yv contentHeight (6 # 10) then contentHeight else 0)
  end.

(** [handleDragEnd]: [velocity_y] is [velocity.y] of the pan event. *)
Definition handleDragEnd (p : Props) (velocity_y : Q) : M unit :=
  (if Js.gtb velocity_y 500 then
     emit OnClose
   else
     contentHeight <- measure ;;
     yv <- getY ;;
     snapTo <- resolveTarget (snapPoints p) contentHeight yv ;;
     emit (Animate snapTo (springConfig p)) ;;
     match snapPoints p with
     | Some sps => when (onSnap p) (emit (OnSnap (recoverIndex sps snapTo)))
     | None => ret tt
     end ;;
     when (Js.geb snapTo contentHeight) (emit OnClose)) ;;
  setIndicator 0.

(** ** The imperative handle (source lines 119-131) *)

Definition snapTo (p : Props) (snapIndex : Z) : M unit :=
  match snapPoints p with
  | Some sps =>
      match Js.index sps snapIndex with
      | Some point =>
          contentHeight <- measure ;;
          let target := contentHeight - point in
          emit (Animate target (springConfig p)) ;;
          when (onSnap p) (emit (OnSnap snapIndex)) ;;
          when (Js.geb target contentHeight) (emit OnClose)
      | None => ret tt
      end
  | None => ret tt
  end.

(** ** The open/close snap effect (source lines 108-117) *)

(** The body of the effect, run in a render whose [mounted] state is
    [mounted]. *)
Definition snapEffect (p : Props) (mounted : bool) : M unit :=
  match snapPoints p with
  | Some sps =>
      if negb (onSnap p) || negb mounted then ret tt
      else
        let snapIndex :=
          if isOpen p then initialSnap p
          else (Z.of_nat (length sps) - 1)%Z in
        emit (OnSnap snapIndex)
  | None => ret tt
  end.

(** What React keeps for the instance between commits: the [mounted] state
    and the dependency [isOpen] of the last commit ([None] before the first
    one). *)
Record HookState : Type := mkHookState {
  mounted : bool;
  lastIsOpen : option bool
}.

Definition initialHookState : HookState := mkHookState false None.

Definition depsChanged (last : option bool) (now : bool) : bool :=
  match last with
  | None => true
  | Some b => negb (Bool.eqb b now)
  end.

(** One commit of a render with props [p]: the snap effect runs when its
    dependency [isOpen] changed (and on the first commit), with the
    [mounted] value of that render; the mount effect has set [mounted] for
    every later render. *)
Definition commit (windowHeight : Q) (p : Props) (inst : HookState) : M HookState :=
  when (depsChanged (lastIsOpen inst) (isOpen p))
       (snapEffect (render windowHeight p) (mounted inst)) ;;
  ret (mkHookState true (Some (isOpen p))).

(** A gesture: drag updates carrying their deltas. *)
Fixpoint dragAll (events : list (Q * Q)) : M unit :=
  match events with
  | [] => ret tt
  | (velocity, delta_y) :: rest => handleDrag velocity delta_y ;; dragAll rest
  end.

(** The world an outcome ends in, and whether it is a normal return. *)
Definition worldOf {A} (o : Outcome A) : World :=
  match o with Returned _ w => w | Threw _ w => w end.

Definition returned {A} (o : Outcome A) : bool :=
  match o with Returned _ _ => true | Threw _ _ => false end.

(** ** Vocabulary of the statements *)

(** The calls a measured release below the fast-dismiss threshold makes,
    given the content height it measured and the target it resolved. *)
Definition releaseEvents (p : Props) (contentHeight target : Q) : list Event :=
  [Animate target (springConfig p)]
  ++ match snapPoints p with
     | Some sps => if onSnap p then [OnSnap (recoverIndex sps target)] else []
     | None => []
     end
  ++ (if Js.geb target contentHeight then [OnClose] else []).

(** The candidate targets of a release: [snapPoints.map(p => contentHeight - p)]. *)
Definition candidates (contentHeight : Q) (sps : list Q) : list Q :=
  map (fun q => contentHeight - q) sps.

(** ** Concrete configurations used in the examples *)

(** Snap points [400, 200, 0], already absolute, with a snap observer. *)
Definition threeStops : Props :=
  mkProps true true (Some [400; 200; 0]) 0 defaultSpring.

(** A panel of height 400 dragged to offset 250, indicator tilted. *)
Definition draggedTo250 : World := mkWorld 250 10 (Some 400) [].

(** Raw snap points [-50, 0.5, 100, 0] rendered in a window of height 801:
    the normalised points are [751, 400.5, 100, 0]. *)
Definition halfStops : Props :=
  render 801 (mkProps true true (Some [-50; 1 # 2; 100; 0]) 0 defaultSpring).

(** A panel of height 751, the first normalised point of [halfStops],
    dragged to offset 350. *)
Definition draggedTo350 : World := mkWorld 350 0 (Some 751) [].

(** Snap points [300, 100] on a panel whose content is 400 high. *)
Definition offAnchor : Props :=
  mkProps true true (Some [300; 100]) 0 defaultSpring.

(** A panel of height 400 resting fully open. *)
Definition fullyOpen : World := mkWorld 0 0 (Some 400) [].

(** The panel element is not in the document: [sheetRef.current] is [null]. *)
Definition notLaidOut : World := mkWorld 250 10 None [].

(** Raw snap points [600, 400, 100] with initial snap 1, to be opened and
    to be closed. *)
Definition opening : Props :=
  mkProps true true (Some [600; 400; 100]) 1 defaultSpring.

Definition closing : Props :=
  mkProps false true (Some [600; 400; 100]) 1 defaultSpring.

(** The same sheet opened with an initial snap of 7. *)
Definition openingAtSeven : Props :=
  mkProps true true (Some [600; 400; 100]) 7 defaultSpring.

(** The hook state after the mount, last committed closed or open. *)
Definition mountedClosed : HookState := mkHookState true (Some false).
Definition mountedOpen : HookState := mkHookState true (Some true).

(** ** Sequences of renders and of drag updates *)

(** The commits of successive renders, each with the window height it read
    and the props it received. *)
Fixpoint commitAll (renders : list (Q * Props)) (hs : HookState)
  : M HookState :=
  match renders with
  | [] => ret hs
  | (windowHeight, p) :: rest =>
      hs' <- commit windowHeight p hs ;; commitAll rest hs'
  end.

(** How often a sequence of [isOpen] values departs from the value before. *)
Fixpoint flips (last : bool) (opens : list bool) : nat :=
  match opens with
  | [] => 0
  | b :: rest => ((if Bool.eqb last b then 0 else 1) + flips b rest)%nat
  end.

Definition isOnSnap (e : Event) : bool :=
  match e with OnSnap _ => true | _ => false end.

Definition isOnClose (e : Event) : bool :=
  match e with OnClose => true | _ => false end.

(** The sum of the deltas of a gesture. *)
Definition totalDelta (events : list (Q * Q)) : Q :=
  fold_right (fun e acc => snd e + acc) 0 events.

(** Whole-pixel snap points [600, 400, 100, 0] with a snap observer, and a
    panel as high as the first of them. *)
Definition wholeStops : Props :=
  mkProps true true (Some (map inject_Z [600; 400; 100; 0]%Z)) 0 defaultSpring.

Definition panel600 (offset : Q) : World := mkWorld offset 10 (Some 600) [].

(** A sheet without snap points. *)
Definition plainSheet : Props := mkProps true true None 0 defaultSpring.

(** * Facts about the number primitives *)

Module JsFacts.

Lemma ltb_lt a b : Js.ltb a b = true <-> a < b.
Proof.
  unfold Js.ltb. rewrite negb_true_iff. split; intro H.
  - apply Qnot_le_lt. intro L. apply Qle_bool_iff in L. congruence.
  - destruct (Qle_bool b a) eqn:E; [|reflexivity].
    apply Qle_bool_iff in E. exfalso. apply (Qlt_not_le _ _ H E).
Qed.

Lemma ltb_ge a b : Js.ltb a b = false <-> b <= a.
Proof.
  unfold Js.ltb. rewrite negb_false_iff. apply Qle_bool_iff.
Qed.

Lemma leb_le a b : Js.leb a b = true <-> a <= b.
Proof. apply Qle_bool_iff. Qed.

Lemma leb_gt a b : Js.leb a b = false <-> b < a.
Proof.
  rewrite <- ltb_lt. unfold Js.ltb, Js.leb.
  destruct (Qle_bool a b); simpl; split; congruence.
Qed.

Lemma gtb_gt a b : Js.gtb a b = true <-> b < a.
Proof. apply ltb_lt. Qed.

Lemma gtb_le a b : Js.gtb a b = false <-> a <= b.
Proof. apply ltb_ge. Qed.

Lemma geb_ge a b : Js.geb a b = true <-> b <= a.
Proof. apply leb_le. Qed.

Lemma max_nonneg a : 0 <= Js.max a 0.
Proof. unfold Js.max. apply Q.le_max_r. Qed.

Lemma max_id a : 0 <= a -> Js.max a 0 == a.
Proof. intro H. unfold Js.max. apply Q.max_l. exact H. Qed.

(** [Math.round] fixes the integers. *)
Lemma round_int (z : Z) : Js.round (inject_Z z) = z.
Proof.
  unfold Js.round, Qfloor, Qplus, inject_Z. simpl.
  symmetry. apply (Z.div_unique _ _ _ 1%Z); lia.
Qed.

End JsFacts.

(** * Snap-point normalisation *)

Lemma normalizePoint_fraction (H v : Q) :
  0 < v -> v <= 1 -> normalizePoint H v = v * H.
Proof.
  intros Hpos Hle. unfold normalizePoint.
  apply JsFacts.gtb_gt in Hpos. apply JsFacts.leb_le in Hle.
  now rewrite Hpos, Hle.
Qed.

Lemma normalizePoint_negative (H v : Q) :
  v < 0 -> normalizePoint H v = H + v.
Proof.
  intros Hneg. unfold normalizePoint.
  assert (G : Js.gtb v 0 = false) by (apply JsFacts.gtb_le; lra).
  apply JsFacts.ltb_lt in Hneg. now rewrite G, Hneg.
Qed.

Lemma normalizePoint_absolute (H v : Q) :
  ~ (0 < v /\ v <= 1) -> ~ v < 0 -> normalizePoint H v = v.
Proof.
  intros Hfrac Hneg. unfold normalizePoint.
  destruct (Js.gtb v 0) eqn:G, (Js.leb v 1) eqn:L; simpl.
  - exfalso. apply Hfrac. split.
    + now apply JsFacts.gtb_gt.
    + now apply JsFacts.leb_le.
  - destruct (Js.ltb v 0) eqn:N; [|reflexivity].
    exfalso. apply Hneg. now apply JsFacts.ltb_lt.
  - destruct (Js.ltb v 0) eqn:N; [|reflexivity].
    exfalso. apply Hneg. now apply JsFacts.ltb_lt.
  - destruct (Js.ltb v 0) eqn:N; [|reflexivity].
    exfalso. apply Hneg. now apply JsFacts.ltb_lt.
Qed.

Lemma normalize_length (H : Q) (sps : list Q) :
  length (normalize H sps) = length sps.
Proof. unfold normalize. apply length_map. Qed.

Lemma normalize_nth (H : Q) (sps : list Q) (i : nat) (v : Q) :
  nth_error sps i = Some v ->
  nth_error (normalize H sps) i = Some (normalizePoint H v).
Proof.
  intro Hi. unfold normalize. rewrite nth_error_map, Hi. reflexivity.
Qed.

(** C3. Normalisation keeps the length of the configured sequence and maps
    the raw value [v] at each position to [v * H] when [0 < v <= 1], to
    [H + v] when [v < 0] and to [v] itself otherwise, with no clamping; for
    every [H], [0.5] becomes [0.5 * H], [-100] becomes [H - 100] and [250]
    stays [250]. *)
Theorem normalize_pointwise (H : Q) (sps : list Q) (i : nat) (v : Q)
  (Hi : nth_error sps i = Some v) :
  length (normalize H sps) = length sps /\
  (exists r, nth_error (normalize H sps) i = Some r /\
     (0 < v /\ v <= 1 -> r = v * H) /\
     (v < 0 -> r = H + v) /\
     (~ (0 < v /\ v <= 1) -> ~ v < 0 -> r = v)) /\
  normalize H [1 # 2; -100; 250] = [(1 # 2) * H; H + -100; 250].
Proof.
  split; [apply normalize_length|]. split; [|reflexivity].
  exists (normalizePoint H v). split; [now apply normalize_nth|].
  split; [|split].
  - intros [Hpos Hle]. now apply normalizePoint_fraction.
  - apply normalizePoint_negative.
  - apply normalizePoint_absolute.
Qed.

Lemma normalize_pointwise_witness :
  length (normalize 800 [1 # 2; -100; 250]) = 3%nat /\
  nth_error (normalize 800 [1 # 2; -100; 250]) 1 = Some (800 + -100).
Proof.
  destruct (normalize_pointwise 800 [1 # 2; -100; 250] 1 (-100) eq_refl)
    as [Hlen [[r [Hr [_ [Hneg _]]]] _]].
  split; [exact Hlen|].
  rewrite Hr. f_equal. apply Hneg. reflexivity.
Defined.

(** * Drag updates *)

Lemma handleDrag_run (velocity d : Q) (w : World) :
  handleDrag velocity d w =
  Returned tt
    (mkWorld (Js.max (y w + d) 0)
             (if Js.ltb velocity 0 then -10
              else if Js.gtb velocity 0 then 10 else indicatorRotation w)
             (sheetRef w) (trace w)).
Proof.
  unfold handleDrag, bind, when.
  destruct (Js.gtb velocity 0), (Js.ltb velocity 0); reflexivity.
Qed.

Lemma dragAll_nonneg (events : list (Q * Q)) :
  forall w, 0 <= y w ->
  exists w', dragAll events w = Returned tt w' /\ 0 <= y w'.
Proof.
  induction events as [|[velocity d] rest IH]; intros w Hw; simpl.
  - exists w. split; [reflexivity|exact Hw].
  - unfold bind. rewrite handleDrag_run. apply IH. simpl.
    apply JsFacts.max_nonneg.
Qed.

(** C7. A drag update with delta [d] moves the live offset from [c] to
    [max (c + d) 0]; hence the offset is not negative after the update, no
    sequence of updates started at a non-negative offset leaves it negative,
    and a downward delta is applied in full. *)
Theorem drag_never_negative (events : list (Q * Q)) (velocity d : Q) (w : World)
  (Hstart : 0 <= y w) :
  (exists w1, handleDrag velocity d w = Returned tt w1 /\
     y w1 = Js.max (y w + d) 0 /\ 0 <= y w1 /\
     (0 <= d -> y w1 == y w + d)) /\
  (exists w2, dragAll events w = Returned tt w2 /\ 0 <= y w2).
Proof.
  split; [|now apply dragAll_nonneg].
  eexists. split; [apply handleDrag_run|]. simpl.
  split; [reflexivity|]. split; [apply JsFacts.max_nonneg|].
  intro Hd. apply JsFacts.max_id. lra.
Qed.

Lemma drag_never_negative_witness :
  0 <= y (mkWorld 250 0 (Some 400) []) /\
  (exists w2,
     dragAll [(-1, -300); (1, 20)] (mkWorld 250 0 (Some 400) []) = Returned tt w2 /\
     0 <= y w2).
Proof.
  assert (H0 : 0 <= y (mkWorld 250 0 (Some 400) [])) by (simpl; discriminate).
  split; [exact H0|].
  exact (proj2 (drag_never_negative [(-1, -300); (1, 20)] 0 0 _ H0)).
Defined.

(** * Releases *)

Lemma closestFrom_in (goal : Q) (rest : list Q) :
  forall prev, In (closestFrom goal prev rest) (prev :: rest).
Proof.
  induction rest as [|curr rest IH]; intro prev; simpl.
  - now left.
  - destruct (IH (if Js.ltb (Qabs (curr - goal)) (Qabs (prev - goal))
                  then curr else prev)) as [E|I].
    + destruct (Js.ltb _ _); [right; left|left]; exact E.
    + right. right. exact I.
Qed.

Lemma closestFrom_min (goal : Q) (rest : list Q) :
  forall prev c, In c (prev :: rest) ->
  Qabs (closestFrom goal prev rest - goal) <= Qabs (c - goal).
Proof.
  induction rest as [|curr rest IH]; intros prev c Hc.
  - destruct Hc as [<-|[]]. simpl. apply Qle_refl.
  - simpl.
    set (prev' := if Js.ltb (Qabs (curr - goal)) (Qabs (prev - goal))
                  then curr else prev).
    assert (Hp : Qabs (prev' - goal) <= Qabs (prev - goal) /\
                 Qabs (prev' - goal) <= Qabs (curr - goal)).
    { unfold prev'.
      destruct (Js.ltb (Qabs (curr - goal)) (Qabs (prev - goal))) eqn:E.
      - apply JsFacts.ltb_lt in E. split; [now apply Qlt_le_weak|apply Qle_refl].
      - apply JsFacts.ltb_ge in E. split; [apply Qle_refl|exact E]. }
    destruct Hp as [Hprev Hcurr].
    assert (Hstep : Qabs (closestFrom goal prev' rest - goal)
                    <= Qabs (prev' - goal)) by (apply IH; now left).
    destruct Hc as [<-|[<-|Hc]].
    + eapply Qle_trans; eassumption.
    + eapply Qle_trans; eassumption.
    + apply IH. now right.
Qed.

Lemma getClosest_some (nums : list Q) (goal : Q) :
  nums <> [] -> exists t, getClosest nums goal = Some t.
Proof.
  destruct nums as [|n rest]; [congruence|]. intros _. now eexists.
Qed.

Lemma getClosest_closest (nums : list Q) (goal t : Q) :
  getClosest nums goal = Some t ->
  In t nums /\ forall c, In c nums -> Qabs (t - goal) <= Qabs (c - goal).
Proof.
  destruct nums as [|n rest]; simpl; [discriminate|].
  intros [= <-]. split.
  - apply closestFrom_in.
  - apply closestFrom_min.
Qed.

(** [y / contentHeight > 0.6] against "the offset exceeds 60% of the
    content height". *)
Lemma div_gtb_sixty (yv ch : Q) :
  0 <= ch ->
  Js.div_gtb yv ch (6 # 10) = true <-> (6 # 10) * ch < yv.
Proof.
  intro Hch. unfold Js.div_gtb.
  destruct (Qeq_bool ch 0) eqn:E.
  - apply Qeq_bool_iff in E. rewrite JsFacts.gtb_gt. rewrite E. lra.
  - assert (Hpos : 0 < ch).
    { apply Qeq_bool_neq in E. lra. }
    rewrite JsFacts.gtb_gt. split; intro H.
    + apply Qnot_le_lt. intro L. apply (Qlt_not_le _ _ H).
      apply Qle_shift_div_r; assumption.
    + apply Qlt_shift_div_l; assumption.
Qed.

Lemma handleDragEnd_slow (p : Props) (vy ch t : Q) (w : World) :
  vy <= 500 ->
  sheetRef w = Some ch ->
  resolveTarget (snapPoints p) ch (y w) w = Returned t w ->
  handleDragEnd p vy w =
  Returned tt (mkWorld (y w) 0 (sheetRef w) (trace w ++ releaseEvents p ch t)).
Proof.
  intros Hv Hm Ht. apply JsFacts.gtb_le in Hv.
  unfold handleDragEnd, bind, measure, getY. rewrite Hv, Hm, Ht.
  unfold releaseEvents, when, emit, setIndicator, ret.
  destruct (snapPoints p) as [sps|]; destruct (onSnap p);
    destruct (Js.geb t ch); simpl; rewrite <- ?app_assoc, ?Hm; reflexivity.
Qed.

Lemma handleDragEnd_unmeasured (p : Props) (vy : Q) (w : World) :
  vy <= 500 ->
  sheetRef w = None ->
  handleDragEnd p vy w = Threw TypeError w.
Proof.
  intros Hv Hm. apply JsFacts.gtb_le in Hv.
  unfold handleDragEnd, bind, measure. now rewrite Hv, Hm.
Qed.

Lemma resolveTarget_snap (sps : list Q) (ch yv : Q) (w : World) :
  sps <> [] ->
  exists t, resolveTarget (Some sps) ch yv w = Returned t w /\
            getClosest (candidates ch sps) yv = Some t.
Proof.
  intro Hne. unfold resolveTarget. fold (candidates ch sps).
  destruct (getClosest_some (candidates ch sps) yv) as [t Ht].
  - unfold candidates. destruct sps; [congruence|discriminate].
  - exists t. now rewrite Ht.
Qed.

(** C1. A release that is not a fast dismiss targets, with snap points
    configured, the candidate [contentHeight - p] closest to the live
    offset, and without snap points [contentHeight] when the offset exceeds
    60% of the content height and [0] otherwise; with points [400, 200, 0]
    and content height 400 an offset of 250 resolves to 200 (derived in the
    witness). *)
Theorem release_target (p : Props) (vy ch : Q) (w : World)
  (Hv : vy <= 500) (Hm : sheetRef w = Some ch) (Hch : 0 <= ch)
  (Hne : snapPoints p <> Some []) :
  exists t,
    handleDragEnd p vy w =
      Returned tt (mkWorld (y w) 0 (sheetRef w)
                           (trace w ++ releaseEvents p ch t)) /\
    match snapPoints p with
    | Some sps =>
        In t (candidates ch sps) /\
        (forall c, In c (candidates ch sps) ->
           Qabs (t - y w) <= Qabs (c - y w))
    | None =>
        ((6 # 10) * ch < y w -> t = ch) /\
        (y w <= (6 # 10) * ch -> t = 0)
    end.
Proof.
  destruct (snapPoints p) as [sps|] eqn:Hs.
  - destruct (resolveTarget_snap sps ch (y w) w) as [t [Hr Hc]].
    { intro E. apply Hne. now rewrite E. }
    exists t. split.
    + apply handleDragEnd_slow; [exact Hv|exact Hm|now rewrite Hs].
    + now apply getClosest_closest.
  - exists (if Js.div_gtb (y w) ch (6 # 10) then ch else 0). split.
    + apply handleDragEnd_slow; [exact Hv|exact Hm|now rewrite Hs].
    + pose proof (div_gtb_sixty (y w) ch Hch) as Hsix.
      destruct (Js.div_gtb (y w) ch (6 # 10)); split; intro H.
      * reflexivity.
      * exfalso. apply (Qlt_not_le _ _ (proj1 Hsix eq_refl) H).
      * apply Hsix in H. discriminate.
      * reflexivity.
Qed.

Lemma release_target_witness :
  exists t,
    handleDragEnd threeStops 0 draggedTo250 =
      Returned tt (mkWorld 250 0 (Some 400) (releaseEvents threeStops 400 t)) /\
    t == 200.
Proof.
  destruct (release_target threeStops 0 400 draggedTo250)
    as [t [Hrun [Hin Hmin]]].
  - unfold Qle; simpl; lia.
  - reflexivity.
  - unfold Qle; simpl; lia.
  - discriminate.
  - exists t. split; [exact Hrun|].
    destruct Hin as [E|[E|[E|[]]]]; subst t.
    + exfalso.
      specialize (Hmin (400 - 200) (or_intror (or_introl eq_refl))).
      vm_compute in Hmin. apply Hmin. reflexivity.
    + reflexivity.
    + exfalso.
      specialize (Hmin (400 - 200) (or_intror (or_introl eq_refl))).
      vm_compute in Hmin. apply Hmin. reflexivity.
Defined.

(** The claim that a fast dismiss skips every later step of the release
    fails: the indicator, tilted to 10 by the drag, is reset to 0. *)
Lemma fast_dismiss_counterexample :
  500 < 501 /\
  handleDragEnd threeStops 501 draggedTo250 =
    Returned tt (mkWorld 250 0 (Some 400) [OnClose]) /\
  indicatorRotation draggedTo250 = 10 /\
  handleDragEnd threeStops 501 draggedTo250 <>
    Returned tt (mkWorld (y draggedTo250) (indicatorRotation draggedTo250)
                         (sheetRef draggedTo250)
                         (trace draggedTo250 ++ [OnClose])).
Proof.
  split; [reflexivity|]. split; [reflexivity|]. split; [reflexivity|].
  intro E. vm_compute in E. discriminate E.
Qed.

(** C2, amended. A release faster than 500 downward calls [onClose] and
    nothing else: no measurement, no target, no transition request and no
    snap callback, whatever the offset, the snap points and the state of the
    panel element; the indicator is still reset to 0. *)
Theorem fast_dismiss (p : Props) (vy : Q) (w : World) (Hv : 500 < vy) :
  handleDragEnd p vy w =
  Returned tt (mkWorld (y w) 0 (sheetRef w) (trace w ++ [OnClose])).
Proof.
  apply JsFacts.gtb_gt in Hv.
  unfold handleDragEnd, bind. rewrite Hv.
  unfold emit, setIndicator. reflexivity.
Qed.

Lemma fast_dismiss_witness :
  500 < 501 /\
  handleDragEnd threeStops 501 (mkWorld 0 (-10) None []) =
  Returned tt (mkWorld 0 0 None [OnClose]).
Proof.
  assert (H : 500 < 501) by reflexivity.
  split; [exact H|].
  exact (fast_dismiss threeStops 501 (mkWorld 0 (-10) None []) H).
Defined.

(** * Index recovery *)

Lemma indexOf_from_position (zs : list Z) :
  NoDup zs ->
  forall k i z, nth_error zs i = Some z ->
  Js.indexOf_from k (map inject_Z zs) (inject_Z z) = (k + Z.of_nat i)%Z.
Proof.
  induction 1 as [|a zs Hfresh Hnd IH]; intros k i z Hi.
  - destruct i; discriminate.
  - destruct i as [|i]; simpl in Hi |- *.
    + injection Hi as ->. rewrite Qeq_bool_refl. lia.
    + destruct (Qeq_bool (inject_Z a) (inject_Z z)) eqn:E.
      * apply (proj1 (Qeq_bool_iff _ _)) in E.
        apply (proj1 (inject_Z_injective a z)) in E. subst a.
        exfalso. apply Hfresh. eapply nth_error_In. exact Hi.
      * rewrite (IH _ _ _ Hi). lia.
Qed.

Lemma indexOf_from_missing (xs : list Q) (v : Q) :
  (forall q, In q xs -> ~ q == v) ->
  forall k, Js.indexOf_from k xs v = (-1)%Z.
Proof.
  induction xs as [|x xs IH]; intros Hmiss k; simpl; [reflexivity|].
  destruct (Qeq_bool x v) eqn:E.
  - apply Qeq_bool_iff in E. exfalso. apply (Hmiss x); [now left|exact E].
  - apply IH. intros q Hq. apply Hmiss. now right.
Qed.

Lemma round_compat (a b : Q) : a == b -> Js.round a = Js.round b.
Proof.
  intro E. unfold Js.round. apply Qfloor_comp. now rewrite E.
Qed.

(** X1. Where the recovery does work: on an anchored, duplicate-free
    sequence of non-negative whole pixel values every candidate target leads
    back to the index it came from. *)
Lemma recoverIndex_integers (zs : list Z) (ch : Q) (i : nat) (z first : Z) :
  NoDup zs ->
  nth_error zs 0 = Some first ->
  ch == inject_Z first ->
  nth_error zs i = Some z ->
  (0 <= z)%Z ->
  recoverIndex (map inject_Z zs) (ch - inject_Z z) = Z.of_nat i.
Proof.
  intros Hnd Hfirst Hch Hi Hz.
  destruct zs as [|f zs]; [discriminate|].
  simpl in Hfirst. injection Hfirst as ->.
  unfold recoverIndex. simpl map. cbv beta iota zeta.
  rewrite (round_compat _ (inject_Z z)) by (rewrite Hch; ring).
  rewrite JsFacts.round_int.
  assert (Habs : Js.abs (inject_Z z) = inject_Z z).
  { unfold Js.abs, Qabs, inject_Z. now rewrite Z.abs_eq. }
  rewrite Habs. unfold Js.indexOf.
  change (inject_Z first :: map inject_Z zs) with (map inject_Z (first :: zs)).
  now rewrite (indexOf_from_position _ Hnd _ _ _ Hi).
Qed.

(** C4. With raw points [-50, 0.5, 100, 0] in a window 801 high the
    normalised points are [751, 400.5, 100, 0]; on a panel 751 high, as the
    anchor asks, the candidate of index 1 is 350.5, and the recovery rounds
    400.5 to 401, finds it nowhere and answers -1: a release at offset 350
    reports [onSnap(-1)], where [snapTo(1)] reports index 1 for the same
    target. *)
Theorem index_recovery_fraction :
  snapPoints halfStops = Some [751; 801 # 2; 100; 0] /\
  sheetRef draggedTo350 = Some 751 /\
  nth_error (candidates 751 [751; 801 # 2; 100; 0]) 1 = Some (701 # 2) /\
  recoverIndex [751; 801 # 2; 100; 0] (701 # 2) = (-1)%Z /\
  handleDragEnd halfStops 0 draggedTo350 =
    Returned tt (mkWorld 350 0 (Some 751)
                         [Animate (701 # 2) defaultSpring; OnSnap (-1)]) /\
  snapTo halfStops 1 draggedTo350 =
    Returned tt (mkWorld 350 0 (Some 751)
                         [Animate (701 # 2) defaultSpring; OnSnap 1]).
Proof. repeat split; reflexivity. Qed.

(** The release at rest on [offAnchor] looks up 200 in [300, 100], finds
    nothing, and the snap observer is called all the same, with -1. *)
Lemma unmatched_release_counterexample :
  Js.indexOf [300; 100] 200 = (-1)%Z /\
  handleDragEnd offAnchor 0 fullyOpen =
    Returned tt (mkWorld 0 0 (Some 400)
                         [Animate 100 defaultSpring; OnSnap (-1)]) /\
  In (OnSnap (-1)) (trace (worldOf (handleDragEnd offAnchor 0 fullyOpen))).
Proof.
  split; [reflexivity|]. split; [reflexivity|]. right. left. reflexivity.
Qed.

(** C8, amended. A measured release below the threshold, with a snap
    observer and a non-empty snap-point sequence in which no point equals
    the rounded snap value, does not throw, and it calls the snap observer
    with -1. *)
Theorem unmatched_release_reports_minus_one
  (p : Props) (vy ch first : Q) (more : list Q) (w : World)
  (Hv : vy <= 500) (Hm : sheetRef w = Some ch)
  (Hs : snapPoints p = Some (first :: more)) (Ho : onSnap p = true) :
  exists t,
    getClosest (candidates ch (first :: more)) (y w) = Some t /\
    ((forall q, In q (first :: more) ->
        ~ q == Js.abs (inject_Z (Js.round (first - t)))) ->
     handleDragEnd p vy w =
       Returned tt
         (mkWorld (y w) 0 (sheetRef w)
            (trace w ++ [Animate t (springConfig p); OnSnap (-1)]
                     ++ (if Js.geb t ch then [OnClose] else [])))).
Proof.
  destruct (resolveTarget_snap (first :: more) ch (y w) w) as [t [Hr Hc]];
    [discriminate|].
  exists t. split; [exact Hc|]. intro Hmiss.
  rewrite (handleDragEnd_slow p vy ch t w Hv Hm) by (now rewrite Hs).
  unfold releaseEvents. rewrite Hs, Ho.
  unfold recoverIndex, Js.indexOf.
  now rewrite (indexOf_from_missing _ _ Hmiss).
Qed.

Lemma unmatched_release_reports_minus_one_witness :
  exists t,
    getClosest (candidates 400 [300; 100]) 0 = Some t /\
    handleDragEnd offAnchor 0 fullyOpen =
      Returned tt
        (mkWorld 0 0 (Some 400)
           ([Animate t defaultSpring; OnSnap (-1)]
              ++ (if Js.geb t 400 then [OnClose] else []))).
Proof.
  destruct (unmatched_release_reports_minus_one
              offAnchor 0 400 300 [100] fullyOpen)
    as [t [Hc Hrun]].
  - unfold Qle; simpl; lia.
  - reflexivity.
  - reflexivity.
  - reflexivity.
  - exists t. split; [exact Hc|]. apply Hrun.
    injection Hc as <-.
    intros q [<-|[<-|[]]]; vm_compute; discriminate.
Defined.

(** * The imperative handle *)

Lemma index_in_range {A} (xs : list A) (N : Z) :
  (0 <= N < Z.of_nat (length xs))%Z ->
  exists x, Js.index xs N = Some x /\ nth_error xs (Z.to_nat N) = Some x.
Proof.
  intros [Hlo Hhi]. unfold Js.index.
  destruct (N <? 0)%Z eqn:E; [apply Z.ltb_lt in E; lia|].
  destruct (nth_error xs (Z.to_nat N)) as [x|] eqn:Hx.
  - now exists x.
  - apply nth_error_None in Hx. lia.
Qed.

Lemma index_out_of_range {A} (xs : list A) (N : Z) :
  (N < 0 \/ Z.of_nat (length xs) <= N)%Z -> Js.index xs N = None.
Proof.
  intros Hout. unfold Js.index.
  destruct (N <? 0)%Z eqn:E; [reflexivity|].
  apply Z.ltb_ge in E. apply nth_error_None. lia.
Qed.

Lemma snapTo_measured (p : Props) (sps : list Q) (N : Z) (point ch : Q)
      (w : World) :
  snapPoints p = Some sps ->
  Js.index sps N = Some point ->
  sheetRef w = Some ch ->
  snapTo p N w =
  Returned tt
    (mkWorld (y w) (indicatorRotation w) (sheetRef w)
       (trace w ++ [Animate (ch - point) (springConfig p)]
                ++ (if onSnap p then [OnSnap N] else [])
                ++ (if Js.geb (ch - point) ch then [OnClose] else []))).
Proof.
  intros Hs Hi Hm. unfold snapTo. rewrite Hs, Hi.
  unfold bind, measure. rewrite Hm.
  unfold when, emit, ret.
  destruct (onSnap p); destruct (Js.geb (ch - point) ch); simpl;
    rewrite <- ?app_assoc, ?Hm; reflexivity.
Qed.

Lemma snapTo_unmeasured (p : Props) (sps : list Q) (N : Z) (point : Q)
      (w : World) :
  snapPoints p = Some sps ->
  Js.index sps N = Some point ->
  sheetRef w = None ->
  snapTo p N w = Threw TypeError w.
Proof.
  intros Hs Hi Hm. unfold snapTo. rewrite Hs, Hi.
  unfold bind, measure. now rewrite Hm.
Qed.

Lemma snapTo_noop (p : Props) (N : Z) (w : World) :
  (snapPoints p = None \/
   exists sps, snapPoints p = Some sps /\
               (N < 0 \/ Z.of_nat (length sps) <= N)%Z) ->
  snapTo p N w = Returned tt w.
Proof.
  intros [Hs|[sps [Hs Hout]]]; unfold snapTo; rewrite Hs; [reflexivity|].
  now rewrite (index_out_of_range sps N Hout).
Qed.

(** C5. [snapTo(N)] leaves everything untouched when no snap points are
    configured or [N] is out of range; for an in-range [N], on a measured
    panel, it requests the transition to
    [contentHeight - normalizedSnapPoints[N]], which is the release
    resolver's candidate of that index, calls the snap observer (when there
    is one) with [N] itself, and calls [onClose] when the target is at
    least the content height. *)
Theorem snapTo_spec (p : Props) (N : Z) (w : World) :
  (snapPoints p = None -> snapTo p N w = Returned tt w) /\
  (forall sps, snapPoints p = Some sps ->
     (N < 0 \/ Z.of_nat (length sps) <= N)%Z ->
     snapTo p N w = Returned tt w) /\
  (forall sps ch, snapPoints p = Some sps ->
     (0 <= N < Z.of_nat (length sps))%Z ->
     sheetRef w = Some ch ->
     exists point,
       nth_error sps (Z.to_nat N) = Some point /\
       nth_error (candidates ch sps) (Z.to_nat N) = Some (ch - point) /\
       snapTo p N w =
       Returned tt
         (mkWorld (y w) (indicatorRotation w) (sheetRef w)
            (trace w ++ [Animate (ch - point) (springConfig p)]
                     ++ (if onSnap p then [OnSnap N] else [])
                     ++ (if Js.geb (ch - point) ch then [OnClose] else [])))).
Proof.
  split; [|split].
  - intro Hs. apply snapTo_noop. now left.
  - intros sps Hs Hout. apply snapTo_noop. right. now exists sps.
  - intros sps ch Hs Hin Hm.
    destruct (index_in_range sps N Hin) as [point [Hi Hn]].
    exists point. split; [exact Hn|]. split.
    + unfold candidates. now rewrite nth_error_map, Hn.
    + now apply (snapTo_measured p sps).
Qed.

Lemma snapTo_spec_witness :
  snapTo threeStops 3 draggedTo250 = Returned tt draggedTo250 /\
  exists point,
    nth_error [400; 200; 0] 2 = Some point /\
    snapTo threeStops 2 draggedTo250 =
    Returned tt
      (mkWorld 250 10 (Some 400)
         ([Animate (400 - point) defaultSpring; OnSnap 2]
            ++ (if Js.geb (400 - point) 400 then [OnClose] else []))).
Proof.
  split.
  - apply (proj1 (proj2 (snapTo_spec threeStops 3 draggedTo250))
             [400; 200; 0] eq_refl).
    right. simpl. lia.
  - destruct (proj2 (proj2 (snapTo_spec threeStops 2 draggedTo250))
                [400; 200; 0] 400 eq_refl) as [point [Hn [_ Hrun]]].
    + simpl. lia.
    + reflexivity.
    + exists point. split; [exact Hn|exact Hrun].
Defined.

(** * Missing measurement *)

(** With the panel element absent, a slow release and an in-range [snapTo]
    end in a [TypeError] instead of returning. *)
Lemma unmeasured_counterexample :
  sheetRef notLaidOut = None /\
  0 <= 500 /\
  handleDragEnd threeStops 0 notLaidOut = Threw TypeError notLaidOut /\
  returned (handleDragEnd threeStops 0 notLaidOut) = false /\
  snapTo threeStops 1 notLaidOut = Threw TypeError notLaidOut /\
  returned (snapTo threeStops 1 notLaidOut) = false.
Proof.
  split; [reflexivity|]. split; [discriminate|]. repeat split; reflexivity.
Qed.

(** C9, amended. While the panel element is absent, a release below the
    fast-dismiss threshold and a [snapTo] with an in-range index throw a
    [TypeError]; up to the throw no transition has been requested, no
    callback has fired and no cell has changed.  A [snapTo] without snap
    points or with an out-of-range index returns and changes nothing. *)
Theorem unmeasured_throws (p : Props) (w : World) (Hm : sheetRef w = None) :
  (forall vy, vy <= 500 -> handleDragEnd p vy w = Threw TypeError w) /\
  (forall sps N, snapPoints p = Some sps ->
     (0 <= N < Z.of_nat (length sps))%Z ->
     snapTo p N w = Threw TypeError w) /\
  (forall N,
     (snapPoints p = None \/
      exists sps, snapPoints p = Some sps /\
                  (N < 0 \/ Z.of_nat (length sps) <= N)%Z) ->
     snapTo p N w = Returned tt w).
Proof.
  split; [|split].
  - intros vy Hv. now apply handleDragEnd_unmeasured.
  - intros sps N Hs Hin.
    destruct (index_in_range sps N Hin) as [point [Hi _]].
    now apply (snapTo_unmeasured p sps N point).
  - intros N. apply snapTo_noop.
Qed.

Lemma unmeasured_throws_witness :
  handleDragEnd threeStops 500 notLaidOut = Threw TypeError notLaidOut /\
  snapTo threeStops 0 notLaidOut = Threw TypeError notLaidOut.
Proof.
  destruct (unmeasured_throws threeStops notLaidOut eq_refl)
    as [Hrel [Hsnap _]].
  split.
  - apply Hrel. unfold Qle; simpl; lia.
  - apply (Hsnap [400; 200; 0]); [reflexivity|simpl; lia].
Defined.

(** * The open/close snap effect *)

Lemma commit_toggle (H : Q) (p : Props) (inst : HookState) (raw : list Q)
      (w : World) :
  mounted inst = true ->
  lastIsOpen inst = Some (negb (isOpen p)) ->
  snapPoints p = Some raw ->
  onSnap p = true ->
  commit H p inst w =
  Returned (mkHookState true (Some (isOpen p)))
    (mkWorld (y w) (indicatorRotation w) (sheetRef w)
       (trace w ++ [OnSnap (if isOpen p then initialSnap p
                            else (Z.of_nat (length raw) - 1)%Z)])).
Proof.
  intros Hmounted Hlast Hs Ho.
  unfold commit, bind, when, depsChanged. rewrite Hlast.
  replace (negb (Bool.eqb (negb (isOpen p)) (isOpen p))) with true
    by (now destruct (isOpen p)).
  unfold snapEffect, render. simpl. rewrite Hs, Ho, Hmounted. simpl.
  now rewrite normalize_length.
Qed.

(** The first commit finds [mounted] false and reports nothing; a commit
    whose [isOpen] is the one of the previous commit does not run the
    effect. *)
Lemma commit_first_silent (H : Q) (p : Props) (w : World) :
  commit H p initialHookState w =
  Returned (mkHookState true (Some (isOpen p))) w.
Proof.
  unfold commit, bind, when, snapEffect. simpl.
  destruct (option_map (normalize H) (snapPoints p)); [|reflexivity].
  now rewrite orb_true_r.
Qed.

Lemma commit_unchanged_silent (H : Q) (p : Props) (inst : HookState)
      (w : World) :
  lastIsOpen inst = Some (isOpen p) ->
  commit H p inst w = Returned (mkHookState true (Some (isOpen p))) w.
Proof.
  intro Hlast. unfold commit, bind, when, depsChanged. rewrite Hlast.
  now rewrite Bool.eqb_reflx.
Qed.

(** C6. Once mounted, with snap points and a snap observer configured,
    every change of [isOpen] calls the snap observer: with [initialSnap]
    when the sheet opens and with [length - 1] when it closes, whatever the
    drag has left in the cells; with points [A, B, C] and [initialSnap = 1],
    opening reports 1 and closing reports 2. *)
Theorem snap_effect_on_toggle (H : Q) (p : Props) (inst : HookState)
  (raw : list Q) (w : World)
  (Hmounted : mounted inst = true)
  (Hchange : lastIsOpen inst = Some (negb (isOpen p)))
  (Hs : snapPoints p = Some raw) (Ho : onSnap p = true) :
  commit H p inst w =
  Returned (mkHookState true (Some (isOpen p)))
    (mkWorld (y w) (indicatorRotation w) (sheetRef w)
       (trace w ++ [OnSnap (if isOpen p then initialSnap p
                            else (Z.of_nat (length raw) - 1)%Z)])).
Proof.
  unfold commit, bind, when, depsChanged. rewrite Hchange.
  assert (Hdeps : negb (Bool.eqb (negb (isOpen p)) (isOpen p)) = true)
    by (now destruct (isOpen p)).
  rewrite Hdeps. unfold snapEffect, render. simpl.
  rewrite Hs, Ho, Hmounted. simpl.
  unfold emit, ret. simpl. now rewrite normalize_length.
Qed.

Lemma snap_effect_on_toggle_witness :
  commit 800 opening mountedClosed draggedTo250 =
    Returned mountedOpen (mkWorld 250 10 (Some 400) [OnSnap 1]) /\
  commit 800 closing mountedOpen draggedTo250 =
    Returned mountedClosed (mkWorld 250 10 (Some 400) [OnSnap 2]).
Proof.
  split.
  - exact (snap_effect_on_toggle 800 opening mountedClosed [600; 400; 100]
             draggedTo250 eq_refl eq_refl eq_refl eq_refl).
  - exact (snap_effect_on_toggle 800 closing mountedOpen [600; 400; 100]
             draggedTo250 eq_refl eq_refl eq_refl eq_refl).
Defined.

(** C10. The open transition hands [initialSnap] to the snap observer as it
    is: when it lies outside the index range of the snap points, opening the
    mounted sheet still calls the observer with that value, which indexes no
    snap point. *)
Theorem initial_snap_unchecked (H : Q) (p : Props) (inst : HookState)
  (raw : list Q) (w : World)
  (Hmounted : mounted inst = true)
  (Hclosed : lastIsOpen inst = Some false)
  (Hopen : isOpen p = true)
  (Hs : snapPoints p = Some raw) (Ho : onSnap p = true)
  (Hout : (initialSnap p < 0 \/ Z.of_nat (length raw) <= initialSnap p)%Z) :
  commit H p inst w =
    Returned (mkHookState true (Some true))
      (mkWorld (y w) (indicatorRotation w) (sheetRef w)
         (trace w ++ [OnSnap (initialSnap p)])) /\
  Js.index (normalize H raw) (initialSnap p) = None.
Proof.
  split.
  - rewrite (commit_toggle H p inst raw w Hmounted) by
      (try assumption; now rewrite Hopen).
    now rewrite Hopen.
  - apply index_out_of_range. now rewrite normalize_length.
Qed.

Lemma initial_snap_unchecked_witness :
  commit 800 openingAtSeven mountedClosed fullyOpen =
    Returned mountedOpen (mkWorld 0 0 (Some 400) [OnSnap 7]) /\
  Js.index (normalize 800 [600; 400; 100]) 7 = None.
Proof.
  apply (initial_snap_unchecked 800 openingAtSeven mountedClosed
           [600; 400; 100] fullyOpen); try reflexivity.
  right. simpl. lia.
Defined.

(** * Further properties of the index recovery *)

Lemma recoverIndex_integers_witness :
  recoverIndex (map inject_Z [600; 400; 100; 0]%Z) (600 - inject_Z 100)
  = Z.of_nat 2.
Proof.
  apply (recoverIndex_integers [600; 400; 100; 0]%Z 600 2 100%Z 600%Z).
  - repeat constructor; simpl; intuition discriminate.
  - reflexivity.
  - reflexivity.
  - reflexivity.
  - lia.
Defined.

Lemma indexOf_from_found (xs : list Q) (v : Q) :
  forall k,
  Js.indexOf_from k xs v = (-1)%Z \/
  ((k <= Js.indexOf_from k xs v < k + Z.of_nat (length xs))%Z /\
   exists x, nth_error xs (Z.to_nat (Js.indexOf_from k xs v - k)) = Some x /\
             x == v).
Proof.
  induction xs as [|x xs IH]; intros k; simpl; [now left|].
  destruct (Qeq_bool x v) eqn:E.
  - right. split; [lia|]. exists x. rewrite Z.sub_diag. split; [reflexivity|].
    now apply Qeq_bool_iff.
  - destruct (IH (k + 1)%Z) as [Hnone|[Hrange [x' [Hx' Heq]]]].
    + now left.
    + right. split; [lia|]. exists x'. split; [|exact Heq].
      replace (Z.to_nat (Js.indexOf_from (k + 1) xs v - k))
        with (S (Z.to_nat (Js.indexOf_from (k + 1) xs v - (k + 1)))) by lia.
      exact Hx'.
Qed.

Lemma recoverIndex_found (sps : list Q) (t : Q) :
  recoverIndex sps t = (-1)%Z \/
  ((0 <= recoverIndex sps t < Z.of_nat (length sps))%Z /\
   exists point,
     nth_error sps (Z.to_nat (recoverIndex sps t)) = Some point /\
     exists first rest,
       sps = first :: rest /\
       point == Js.abs (inject_Z (Js.round (first - t)))).
Proof.
  destruct sps as [|first rest]; [now left|].
  unfold recoverIndex.
  set (v := Js.abs (inject_Z (Js.round (first - t)))).
  unfold Js.indexOf.
  destruct (indexOf_from_found (first :: rest) v 0%Z)
    as [Hnone|[Hrange [x [Hx Heq]]]]; [now left|].
  right. split; [lia|]. exists x. rewrite Z.sub_0_r in Hx.
  split; [exact Hx|]. now exists first, rest.
Qed.

(** X2. A release reports an index between -1 and the last index of the
    snap points; a reported index that is not -1 denotes a snap point equal
    to the rounded snap value, hence a non-negative whole number; so the
    index of a snap point that is negative or not whole is never reported,
    whatever the target. *)
Theorem recoverIndex_bounds (sps : list Q) (t : Q) :
  (-1 <= recoverIndex sps t < Z.of_nat (length sps))%Z /\
  (recoverIndex sps t <> (-1)%Z ->
   exists point n,
     Js.index sps (recoverIndex sps t) = Some point /\
     (0 <= n)%Z /\ point == inject_Z n) /\
  (forall i q,
     nth_error sps i = Some q ->
     (forall n, (0 <= n)%Z -> ~ q == inject_Z n) ->
     recoverIndex sps t <> Z.of_nat i).
Proof.
  destruct (recoverIndex_found sps t)
    as [Hnone|[Hrange [point [Hpoint [first [rest [Hsps Heq]]]]]]].
  - rewrite Hnone. split; [lia|]. split; [congruence|]. intros; lia.
  - split; [lia|]. split.
    + intros _. exists point, (Z.abs (Js.round (first - t))).
      split; [|split; [apply Z.abs_nonneg|exact Heq]].
      unfold Js.index.
      destruct (recoverIndex sps t <? 0)%Z eqn:L;
        [apply Z.ltb_lt in L; lia|exact Hpoint].
    + intros i q Hq Hfrac Hi. rewrite Hi, Nat2Z.id, Hq in Hpoint.
      injection Hpoint as ->.
      apply (Hfrac (Z.abs (Js.round (first - t)))); [apply Z.abs_nonneg|].
      exact Heq.
Qed.

Lemma recoverIndex_bounds_witness :
  exists point n,
    Js.index [751; 801 # 2; 100; 0] (recoverIndex [751; 801 # 2; 100; 0] 651)
    = Some point /\ (0 <= n)%Z /\ point == inject_Z n.
Proof.
  apply (proj1 (proj2 (recoverIndex_bounds [751; 801 # 2; 100; 0] 651))).
  vm_compute. discriminate.
Defined.

Lemma recoverIndex_anchor (zs : list Z) (t : Q) (i : nat) (z first : Z) :
  NoDup zs ->
  nth_error zs 0 = Some first ->
  nth_error zs i = Some z ->
  (0 <= z)%Z ->
  inject_Z first - t == inject_Z z ->
  recoverIndex (map inject_Z zs) t = Z.of_nat i.
Proof.
  intros Hnd Hfirst Hi Hz Hdiff.
  destruct zs as [|f zs]; [discriminate|].
  simpl in Hfirst. injection Hfirst as ->.
  unfold recoverIndex. simpl map. cbv beta iota zeta.
  rewrite (round_compat _ _ Hdiff), JsFacts.round_int.
  unfold Js.abs, Qabs, inject_Z. rewrite Z.abs_eq by exact Hz.
  unfold Js.indexOf.
  change ((first # 1) :: map (fun x => x # 1) zs)
    with (map inject_Z (first :: zs)).
  change (z # 1) with (inject_Z z).
  now rewrite (indexOf_from_position _ Hnd _ _ _ Hi).
Qed.

Lemma geb_candidate (ch : Q) (z : Z) :
  (0 <= z)%Z -> Js.geb (ch - inject_Z z) ch = (z =? 0)%Z.
Proof.
  intro Hz. destruct (z =? 0)%Z eqn:E.
  - apply Z.eqb_eq in E. subst z. apply JsFacts.geb_ge.
    unfold inject_Z. lra.
  - apply Z.eqb_neq in E. apply JsFacts.leb_gt.
    assert (Hpos : 0 < inject_Z z).
    { change 0 with (inject_Z 0). rewrite <- Zlt_Qlt. lia. }
    lra.
Qed.

Lemma release_on_candidate (p : Props) (vy ch : Q) (zs : list Z)
      (first z : Z) (i : nat) (w : World) :
  vy <= 500 ->
  sheetRef w = Some ch ->
  snapPoints p = Some (map inject_Z zs) ->
  onSnap p = true ->
  NoDup zs ->
  nth_error zs 0 = Some first ->
  ch == inject_Z first ->
  nth_error zs i = Some z ->
  (0 <= z)%Z ->
  getClosest (candidates ch (map inject_Z zs)) (y w) = Some (ch - inject_Z z) ->
  handleDragEnd p vy w =
  Returned tt
    (mkWorld (y w) 0 (sheetRef w)
       (trace w ++ [Animate (ch - inject_Z z) (springConfig p);
                    OnSnap (Z.of_nat i)]
                ++ (if (z =? 0)%Z then [OnClose] else []))).
Proof.
  intros Hv Hm Hs Ho Hnd Hfirst Hanchor Hi Hz Hc.
  rewrite (handleDragEnd_slow p vy ch (ch - inject_Z z) w Hv Hm).
  - unfold releaseEvents. rewrite Hs, Ho.
    rewrite (recoverIndex_anchor zs _ i z first Hnd Hfirst Hi Hz)
      by (rewrite Hanchor; ring).
    now rewrite (geb_candidate ch z Hz).
  - rewrite Hs. unfold resolveTarget. unfold candidates in Hc.
    now rewrite Hc.
Qed.

Lemma candidate_of_whole (ch t : Q) (zs : list Z) :
  In t (candidates ch (map inject_Z zs)) ->
  exists z, In z zs /\ t = ch - inject_Z z.
Proof.
  unfold candidates. rewrite map_map. intro Hin.
  apply in_map_iff in Hin. destruct Hin as [z [Ht Hz]].
  exists z. split; [exact Hz|now symmetry].
Qed.

(** X3. On an anchored, duplicate-free sequence of non-negative whole snap
    points a measured release below the threshold requests the transition
    to the candidate of the snap point nearest to the offset, reports that
    very snap point's index, and calls [onClose] exactly when that snap
    point is 0. *)
Theorem release_reports_chosen_index (p : Props) (vy ch : Q) (zs : list Z)
  (first : Z) (w : World)
  (Hv : vy <= 500) (Hm : sheetRef w = Some ch)
  (Hs : snapPoints p = Some (map inject_Z zs)) (Ho : onSnap p = true)
  (Hnd : NoDup zs) (Hpos : Forall (fun z => 0 <= z)%Z zs)
  (Hfirst : nth_error zs 0 = Some first) (Hanchor : ch == inject_Z first) :
  exists i z,
    nth_error zs i = Some z /\
    (forall z', In z' zs ->
       Qabs (ch - inject_Z z - y w) <= Qabs (ch - inject_Z z' - y w)) /\
    handleDragEnd p vy w =
    Returned tt
      (mkWorld (y w) 0 (sheetRef w)
         (trace w ++ [Animate (ch - inject_Z z) (springConfig p);
                      OnSnap (Z.of_nat i)]
                  ++ (if (z =? 0)%Z then [OnClose] else []))).
Proof.
  destruct (getClosest_some (candidates ch (map inject_Z zs)) (y w))
    as [t Hc].
  { destruct zs; [discriminate|discriminate]. }
  destruct (getClosest_closest _ _ _ Hc) as [Hin Hmin].
  destruct (candidate_of_whole ch t zs Hin) as [z [Hz ->]].
  destruct (In_nth_error zs z Hz) as [i Hi].
  exists i, z. split; [exact Hi|]. split.
  - intros z' Hz'. apply Hmin. unfold candidates. rewrite map_map.
    apply in_map_iff. now exists z'.
  - apply (release_on_candidate p vy ch zs first z i w); try assumption.
    now apply (proj1 (Forall_forall _ zs) Hpos).
Qed.

Lemma release_reports_chosen_index_witness :
  exists i z,
    nth_error [600; 400; 100; 0]%Z i = Some z /\
    handleDragEnd wholeStops 0 (panel600 480) =
    Returned tt
      (mkWorld 480 0 (Some 600)
         ([Animate (600 - inject_Z z) defaultSpring; OnSnap (Z.of_nat i)]
            ++ (if (z =? 0)%Z then [OnClose] else []))).
Proof.
  destruct (release_reports_chosen_index
              wholeStops 0 600 [600; 400; 100; 0]%Z 600%Z (panel600 480))
    as [i [z [Hi [_ Hrun]]]].
  - unfold Qle; simpl; lia.
  - reflexivity.
  - reflexivity.
  - reflexivity.
  - repeat constructor; simpl; intuition discriminate.
  - repeat constructor; lia.
  - reflexivity.
  - reflexivity.
  - exists i, z. split; [exact Hi|exact Hrun].
Defined.




(** * Further properties of the imperative handle and of releases *)

Lemma index_some_range {A} (xs : list A) (N : Z) (x : A) :
  Js.index xs N = Some x -> (0 <= N < Z.of_nat (length xs))%Z.
Proof.
  unfold Js.index. destruct (N <? 0)%Z eqn:L; [discriminate|].
  apply Z.ltb_ge in L. intro Hx.
  assert (Hlt : (Z.to_nat N < length xs)%nat)
    by (apply nth_error_Some; congruence).
  lia.
Qed.

(** X5. [snapTo] on a measured panel calls [onClose] exactly when the snap
    point it is sent to is at most 0, whatever the content height is. *)
Theorem snapTo_closes_iff (p : Props) (sps : list Q) (N : Z) (point ch : Q)
  (w : World)
  (Hs : snapPoints p = Some sps) (Hi : Js.index sps N = Some point)
  (Hm : sheetRef w = Some ch) :
  exists evs,
    snapTo p N w =
      Returned tt
        (mkWorld (y w) (indicatorRotation w) (sheetRef w)
           (trace w ++ Animate (ch - point) (springConfig p) :: evs)) /\
    (In OnClose evs <-> point <= 0).
Proof.
  exists ((if onSnap p then [OnSnap N] else [])
            ++ (if Js.geb (ch - point) ch then [OnClose] else [])).
  split; [now apply (snapTo_measured p sps)|].
  rewrite in_app_iff. split.
  - intros [Hin|Hin].
    + destruct (onSnap p); simpl in Hin; intuition discriminate.
    + destruct (Js.geb (ch - point) ch) eqn:G; [|contradiction].
      apply JsFacts.geb_ge in G. lra.
  - intro Hle. right.
    assert (G : Js.geb (ch - point) ch = true) by (apply JsFacts.geb_ge; lra).
    rewrite G. now left.
Qed.

Lemma snapTo_closes_iff_witness :
  exists evs,
    snapTo threeStops 2 draggedTo250 =
      Returned tt (mkWorld 250 10 (Some 400)
                           (Animate (400 - 0) defaultSpring :: evs)) /\
    (In OnClose evs <-> 0 <= 0).
Proof.
  exact (snapTo_closes_iff threeStops [400; 200; 0] 2 0 400 draggedTo250
           eq_refl eq_refl eq_refl).
Defined.

(** X6. [snapTo] never writes the live offset, the indicator or the panel
    reference; it fails exactly when the index is in range and the panel
    element is absent, and then it has made no call at all. *)
Theorem snapTo_frame (p : Props) (N : Z) (w : World) :
  y (worldOf (snapTo p N w)) = y w /\
  indicatorRotation (worldOf (snapTo p N w)) = indicatorRotation w /\
  sheetRef (worldOf (snapTo p N w)) = sheetRef w /\
  (returned (snapTo p N w) = false <->
   sheetRef w = None /\
   exists sps, snapPoints p = Some sps /\
               (0 <= N < Z.of_nat (length sps))%Z) /\
  (returned (snapTo p N w) = false -> worldOf (snapTo p N w) = w).
Proof.
  destruct (snapPoints p) as [sps|] eqn:Hs.
  - destruct (Js.index sps N) as [point|] eqn:Hi.
    + pose proof (index_some_range sps N point Hi) as Hrange.
      destruct (sheetRef w) as [ch|] eqn:Hm.
      * rewrite (snapTo_measured p sps N point ch w Hs Hi Hm). simpl.
        repeat split; try discriminate; try assumption.
        intros [Hnone _]. discriminate.
      * rewrite (snapTo_unmeasured p sps N point w Hs Hi Hm). simpl.
        repeat split; try assumption. now exists sps.
    + assert (Hrun : snapTo p N w = Returned tt w)
        by (unfold snapTo; now rewrite Hs, Hi).
      rewrite Hrun. simpl. repeat split; try discriminate.
      intros [_ [sps' [Hs' Hrange]]]. injection Hs' as <-.
      destruct (index_in_range sps N Hrange) as [x [Hx _]]. congruence.
  - assert (Hrun : snapTo p N w = Returned tt w)
      by (unfold snapTo; now rewrite Hs).
    rewrite Hrun. simpl. repeat split; try discriminate.
    intros [_ [sps' [Hs' _]]]. discriminate.
Qed.

Lemma snapTo_frame_witness :
  returned (snapTo threeStops 1 notLaidOut) = false /\
  worldOf (snapTo threeStops 1 notLaidOut) = notLaidOut.
Proof.
  destruct (snapTo_frame threeStops 1 notLaidOut)
    as [_ [_ [_ [Hfail Hsame]]]].
  assert (H : returned (snapTo threeStops 1 notLaidOut) = false).
  { apply Hfail. split; [reflexivity|].
    exists [400; 200; 0]. split; [reflexivity|simpl; lia]. }
  split; [exact H|exact (Hsame H)].
Defined.

Lemma handleDragEnd_fast_run (p : Props) (vy : Q) (w : World) :
  500 < vy ->
  handleDragEnd p vy w =
  Returned tt (mkWorld (y w) 0 (sheetRef w) (trace w ++ [OnClose])).
Proof.
  intro Hv. apply JsFacts.gtb_gt in Hv.
  unfold handleDragEnd, bind. now rewrite Hv.
Qed.

Lemma resolveTarget_returns (sps : option (list Q)) (ch yv : Q) (w : World) :
  sps <> Some [] ->
  exists t, resolveTarget sps ch yv w = Returned t w.
Proof.
  intro Hne. destruct sps as [l|].
  - destruct (resolveTarget_snap l ch yv w) as [t [Hr _]].
    + intro E. apply Hne. now rewrite E.
    + now exists t.
  - now eexists.
Qed.

(** X7. A release over a non-empty or absent snap-point array fails exactly
    when it is below the fast-dismiss threshold and the panel element is
    absent, and then it has made no call.  A release that returns has left
    the live offset and the panel reference as they were, has reset the
    indicator to 0, and has called [onClose] at most once and [onSnap] at
    most once. *)
Theorem release_frame (p : Props) (vy : Q) (w : World)
  (Hne : snapPoints p <> Some []) :
  (returned (handleDragEnd p vy w) = false <->
   vy <= 500 /\ sheetRef w = None) /\
  (returned (handleDragEnd p vy w) = false ->
   worldOf (handleDragEnd p vy w) = w) /\
  (returned (handleDragEnd p vy w) = true ->
   y (worldOf (handleDragEnd p vy w)) = y w /\
   sheetRef (worldOf (handleDragEnd p vy w)) = sheetRef w /\
   indicatorRotation (worldOf (handleDragEnd p vy w)) = 0 /\
   exists evs,
     trace (worldOf (handleDragEnd p vy w)) = trace w ++ evs /\
     (length (filter isOnClose evs) <= 1)%nat /\
     (length (filter isOnSnap evs) <= 1)%nat).
Proof.
  destruct (Qlt_le_dec 500 vy) as [Hfast|Hslow].
  - rewrite (handleDragEnd_fast_run p vy w Hfast). simpl.
    split; [|split].
    + split; [discriminate|]. intros [Hle _].
      exfalso. apply (Qlt_not_le _ _ Hfast Hle).
    + discriminate.
    + intros _. repeat split. exists [OnClose]. simpl. repeat split; lia.
  - destruct (sheetRef w) as [ch|] eqn:Hm.
    + destruct (resolveTarget_returns (snapPoints p) ch (y w) w Hne)
        as [t Ht].
      rewrite (handleDragEnd_slow p vy ch t w Hslow Hm Ht). simpl.
      split; [|split].
      * split; [discriminate|]. intros [_ Hnone]. congruence.
      * discriminate.
      * intros _. repeat split; [now rewrite Hm|].
        exists (releaseEvents p ch t). split; [reflexivity|].
        unfold releaseEvents.
        destruct (snapPoints p); destruct (onSnap p);
          destruct (Js.geb t ch); simpl; split; lia.
    + rewrite (handleDragEnd_unmeasured p vy w Hslow Hm). simpl.
      split; [|split].
      * split; [intros _; now split|reflexivity].
      * reflexivity.
      * discriminate.
Qed.

Lemma release_frame_witness :
  indicatorRotation (worldOf (handleDragEnd threeStops 0 draggedTo250)) = 0 /\
  y (worldOf (handleDragEnd threeStops 0 draggedTo250)) = 250.
Proof.
  assert (Hne : snapPoints threeStops <> Some []) by discriminate.
  destruct (release_frame threeStops 0 draggedTo250 Hne) as [_ [_ Hret]].
  destruct (Hret eq_refl) as [Hy [_ [Hind _]]].
  split; [exact Hind|exact Hy].
Defined.

Lemma release_plain_run (p : Props) (vy ch : Q) (w : World) :
  vy <= 500 ->
  sheetRef w = Some ch ->
  snapPoints p = None ->
  handleDragEnd p vy w =
  Returned tt
    (mkWorld (y w) 0 (sheetRef w)
       (trace w
          ++ [Animate (if Js.div_gtb (y w) ch (6 # 10) then ch else 0)
                      (springConfig p)]
          ++ (if Js.geb (if Js.div_gtb (y w) ch (6 # 10) then ch else 0) ch
              then [OnClose] else []))).
Proof.
  intros Hv Hm Hs.
  rewrite (handleDragEnd_slow p vy ch
             (if Js.div_gtb (y w) ch (6 # 10) then ch else 0) w Hv Hm)
    by (now rewrite Hs).
  unfold releaseEvents. now rewrite Hs.
Qed.

(** X8. Without snap points a measured release below the threshold never
    calls [onSnap], even when a snap observer is configured.  On a panel of
    positive height it requests the transition to the content height and
    calls [onClose] when the offset exceeds 60% of the height, and requests
    the transition to 0 without closing otherwise; on a panel of height 0
    it always calls [onClose]. *)
Theorem release_without_snap_points (p : Props) (vy ch : Q) (w : World)
  (Hv : vy <= 500) (Hm : sheetRef w = Some ch) (Hs : snapPoints p = None)
  (Hch : 0 <= ch) :
  (0 < ch -> (6 # 10) * ch < y w ->
   handleDragEnd p vy w =
   Returned tt (mkWorld (y w) 0 (sheetRef w)
                  (trace w ++ [Animate ch (springConfig p); OnClose]))) /\
  (0 < ch -> y w <= (6 # 10) * ch ->
   handleDragEnd p vy w =
   Returned tt (mkWorld (y w) 0 (sheetRef w)
                  (trace w ++ [Animate 0 (springConfig p)]))) /\
  (ch == 0 ->
   exists t, t == 0 /\
     handleDragEnd p vy w =
     Returned tt (mkWorld (y w) 0 (sheetRef w)
                    (trace w ++ [Animate t (springConfig p); OnClose]))).
Proof.
  pose proof (div_gtb_sixty (y w) ch Hch) as Hsix.
  rewrite (release_plain_run p vy ch w Hv Hm Hs).
  split; [|split].
  - intros Hpos Hfar. apply Hsix in Hfar. rewrite Hfar.
    assert (G : Js.geb ch ch = true) by (apply JsFacts.geb_ge; lra).
    now rewrite G.
  - intros Hpos Hnear.
    destruct (Js.div_gtb (y w) ch (6 # 10)) eqn:D.
    + exfalso. apply (Qlt_not_le _ _ (proj1 Hsix eq_refl) Hnear).
    + assert (G : Js.geb 0 ch = false) by (apply JsFacts.leb_gt; exact Hpos).
      now rewrite G.
  - intro Hzero.
    exists (if Js.div_gtb (y w) ch (6 # 10) then ch else 0). split.
    + destruct (Js.div_gtb (y w) ch (6 # 10)); [exact Hzero|reflexivity].
    + assert (G : Js.geb (if Js.div_gtb (y w) ch (6 # 10) then ch else 0) ch
                  = true).
      { apply JsFacts.geb_ge.
        destruct (Js.div_gtb (y w) ch (6 # 10)); lra. }
      now rewrite G.
Qed.

Lemma release_without_snap_points_witness :
  handleDragEnd plainSheet 0 (mkWorld 190 10 (Some 300) []) =
    Returned tt (mkWorld 190 0 (Some 300) [Animate 300 defaultSpring; OnClose]) /\
  handleDragEnd plainSheet 0 (mkWorld 150 10 (Some 300) []) =
    Returned tt (mkWorld 150 0 (Some 300) [Animate 0 defaultSpring]).
Proof.
  split.
  - apply (release_without_snap_points plainSheet 0 300
             (mkWorld 190 10 (Some 300) [])); try reflexivity;
      unfold Qle; simpl; lia.
  - apply (release_without_snap_points plainSheet 0 300
             (mkWorld 150 10 (Some 300) [])); try reflexivity;
      unfold Qle; simpl; lia.
Defined.

(** X9. Without snap points the target of a measured release is a rest
    position: once the offset has reached it, a further release below the
    threshold on the same panel asks for the same target again. *)
Theorem release_stable_at_rest (p : Props) (vy vy' ch : Q) (w w' : World)
  (Hv : vy <= 500) (Hv' : vy' <= 500)
  (Hm : sheetRef w = Some ch) (Hm' : sheetRef w' = Some ch)
  (Hs : snapPoints p = None) (Hch : 0 <= ch) :
  exists t evs,
    handleDragEnd p vy w =
      Returned tt (mkWorld (y w) 0 (sheetRef w)
                     (trace w ++ Animate t (springConfig p) :: evs)) /\
    (y w' == t ->
     exists t' evs',
       handleDragEnd p vy' w' =
         Returned tt (mkWorld (y w') 0 (sheetRef w')
                        (trace w' ++ Animate t' (springConfig p) :: evs')) /\
       t' == t).
Proof.
  rewrite (release_plain_run p vy ch w Hv Hm Hs).
  rewrite (release_plain_run p vy' ch w' Hv' Hm' Hs).
  pose proof (div_gtb_sixty (y w) ch Hch) as Hsix.
  pose proof (div_gtb_sixty (y w') ch Hch) as Hsix'.
  eexists. eexists. split; [reflexivity|].
  intro Hrest. eexists. eexists. split; [reflexivity|].
  destruct (Js.div_gtb (y w) ch (6 # 10)) eqn:D;
    destruct (Js.div_gtb (y w') ch (6 # 10)) eqn:D'; try reflexivity.
  - destruct (Qlt_le_dec 0 ch) as [Hpos|Hnonpos]; [|lra].
    assert (Hfar : (6 # 10) * ch < y w') by (rewrite Hrest; lra).
    apply Hsix' in Hfar. discriminate.
  - assert (Hfar : (6 # 10) * ch < y w') by (now apply Hsix').
    rewrite Hrest in Hfar. lra.
Qed.

Lemma release_stable_at_rest_witness :
  exists t evs,
    handleDragEnd plainSheet 0 (mkWorld 190 10 (Some 300) []) =
      Returned tt (mkWorld 190 0 (Some 300) (Animate t defaultSpring :: evs)) /\
    (300 == t ->
     exists t' evs',
       handleDragEnd plainSheet 0 (mkWorld 300 0 (Some 300) []) =
         Returned tt (mkWorld 300 0 (Some 300)
                        (Animate t' defaultSpring :: evs')) /\
       t' == t).
Proof.
  apply (release_stable_at_rest plainSheet 0 0 300
           (mkWorld 190 10 (Some 300) []) (mkWorld 300 0 (Some 300) []));
    try reflexivity; unfold Qle; simpl; lia.
Defined.

(** * Further properties of gestures *)

(** X10. A gesture of drag updates never fails, makes no call to [onClose],
    [onSnap] or [animate], and leaves the panel reference alone, whether or
    not the panel element exists; the indicator ends at 10, at -10 or where
    it was, and where it was when every reading of the velocity was 0. *)
Theorem drag_gesture_frame (events : list (Q * Q)) (w : World) :
  exists w',
    dragAll events w = Returned tt w' /\
    trace w' = trace w /\
    sheetRef w' = sheetRef w /\
    (indicatorRotation w' = indicatorRotation w \/
     indicatorRotation w' = 10 \/ indicatorRotation w' = -10) /\
    (Forall (fun e => fst e == 0) events ->
     indicatorRotation w' = indicatorRotation w).
Proof.
  revert w. induction events as [|[velocity d] rest IH]; intro w.
  - exists w. simpl. repeat split; auto.
  - simpl. unfold bind. rewrite handleDrag_run.
    destruct (IH (mkWorld (Js.max (y w + d) 0)
                    (if Js.ltb velocity 0 then -10
                     else if Js.gtb velocity 0 then 10
                          else indicatorRotation w)
                    (sheetRef w) (trace w)))
      as [w' [Hrun [Htrace [Href [Hind Hstill]]]]].
    simpl in Htrace, Href, Hind, Hstill.
    exists w'. split; [exact Hrun|]. split; [exact Htrace|].
    split; [exact Href|]. split.
    + destruct Hind as [Hind|Hind]; [|now right].
      rewrite Hind.
      destruct (Js.ltb velocity 0); [now right; right|].
      destruct (Js.gtb velocity 0); [now right; left|now left].
    + intro Hall. inversion Hall as [|e es Hzero Hrest]; subst.
      simpl in Hzero. rewrite (Hstill Hrest).
      assert (L : Js.ltb velocity 0 = false) by (apply JsFacts.ltb_ge; lra).
      assert (G : Js.gtb velocity 0 = false) by (apply JsFacts.gtb_le; lra).
      now rewrite L, G.
Qed.

Lemma drag_gesture_frame_witness :
  exists w',
    dragAll [(0, -300); (0, 20)] notLaidOut = Returned tt w' /\
    trace w' = [] /\ indicatorRotation w' = 10.
Proof.
  destruct (drag_gesture_frame [(0, -300); (0, 20)] notLaidOut)
    as [w' [Hrun [Htrace [_ [_ Hstill]]]]].
  exists w'. split; [exact Hrun|]. split; [exact Htrace|].
  apply Hstill. repeat constructor.
Defined.

(** X11. Over a gesture the clamp only ever pushes the offset down the
    screen: the final offset is at least the initial one plus the sum of
    the deltas, and it is exactly that sum when the gesture starts at a
    non-negative offset and no delta points upward. *)
Theorem drag_gesture_lower_bound (events : list (Q * Q)) (w : World) :
  exists w',
    dragAll events w = Returned tt w' /\
    y w + totalDelta events <= y w' /\
    (0 <= y w -> Forall (fun e => 0 <= snd e) events ->
     y w' == y w + totalDelta events).
Proof.
  revert w. induction events as [|[velocity d] rest IH]; intro w.
  - exists w. simpl. split; [reflexivity|]. split; [lra|]. intros _ _. lra.
  - simpl. unfold bind. rewrite handleDrag_run.
    destruct (IH (mkWorld (Js.max (y w + d) 0)
                    (if Js.ltb velocity 0 then -10
                     else if Js.gtb velocity 0 then 10
                          else indicatorRotation w)
                    (sheetRef w) (trace w)))
      as [w' [Hrun [Hlow Hexact]]].
    simpl in Hlow, Hexact.
    exists w'. split; [exact Hrun|]. split.
    + pose proof (Q.le_max_l (y w + d) 0) as Hmax. unfold Js.max in Hlow. lra.
    + intros Hstart Hall. inversion Hall as [|e es Hd Hrest]; subst.
      simpl in Hd.
      assert (Hid : Js.max (y w + d) 0 == y w + d)
        by (apply JsFacts.max_id; lra).
      rewrite Hexact; [lra| |exact Hrest].
      apply JsFacts.max_nonneg.
Qed.

Lemma drag_gesture_lower_bound_witness :
  exists w',
    dragAll [(1, 30); (1, 20)] draggedTo250 = Returned tt w' /\
    y w' == 250 + totalDelta [(1, 30); (1, 20)].
Proof.
  destruct (drag_gesture_lower_bound [(1, 30); (1, 20)] draggedTo250)
    as [w' [Hrun [_ Hexact]]].
  exists w'. split; [exact Hrun|].
  apply Hexact.
  - unfold Qle; simpl; lia.
  - repeat constructor; unfold Qle; simpl; lia.
Defined.

(** * Further properties of the snap effect and of the normalisation *)

Lemma world_eta (w : World) :
  mkWorld (y w) (indicatorRotation w) (sheetRef w) (trace w ++ []) = w.
Proof. destruct w. simpl. now rewrite app_nil_r. Qed.

Lemma commitAll_mounted (renders : list (Q * Props)) :
  forall (b : bool) (hs : HookState) (w : World),
  mounted hs = true ->
  lastIsOpen hs = Some b ->
  Forall (fun r => snapPoints (snd r) <> None /\ onSnap (snd r) = true)
         renders ->
  exists hs' evs,
    commitAll renders hs w =
      Returned hs' (mkWorld (y w) (indicatorRotation w) (sheetRef w)
                            (trace w ++ evs)) /\
    length evs = flips b (map (fun r => isOpen (snd r)) renders) /\
    Forall (fun e => isOnSnap e = true) evs.
Proof.
  induction renders as [|[H p] rest IH]; intros b hs w Hmounted Hlast Hall.
  - exists hs, []. simpl. unfold ret. rewrite world_eta. now repeat split.
  - inversion Hall as [|r rs [Hsnap Hobs] Hrest]; subst. simpl in Hsnap, Hobs.
    simpl commitAll. unfold bind.
    destruct (Bool.eqb b (isOpen p)) eqn:E.
    + apply Bool.eqb_prop in E. subst b.
      rewrite (commit_unchanged_silent H p hs w Hlast).
      destruct (IH (isOpen p) (mkHookState true (Some (isOpen p))) w
                  eq_refl eq_refl Hrest) as [hs' [evs [Hrun [Hlen Hsnaps]]]].
      exists hs', evs. split; [exact Hrun|]. split; [|exact Hsnaps].
      simpl. now rewrite Bool.eqb_reflx.
    + destruct (snapPoints p) as [raw|] eqn:Hs; [|congruence].
      assert (Hflip : lastIsOpen hs = Some (negb (isOpen p))).
      { rewrite Hlast. f_equal. revert E.
        destruct b, (isOpen p); simpl; congruence. }
      rewrite (commit_toggle H p hs raw w Hmounted Hflip Hs Hobs).
      destruct (IH (isOpen p) (mkHookState true (Some (isOpen p)))
                  (mkWorld (y w) (indicatorRotation w) (sheetRef w)
                     (trace w ++ [OnSnap (if isOpen p then initialSnap p
                                          else (Z.of_nat (length raw) - 1)%Z)]))
                  eq_refl eq_refl Hrest) as [hs' [evs [Hrun [Hlen Hsnaps]]]].
      simpl in Hrun.
      exists hs', (OnSnap (if isOpen p then initialSnap p
                           else (Z.of_nat (length raw) - 1)%Z) :: evs).
      split; [|split].
      * rewrite Hrun. now rewrite <- app_assoc.
      * simpl. rewrite E. now rewrite Hlen.
      * constructor; [reflexivity|exact Hsnaps].
Qed.

(** X12. Over the life of a sheet whose renders all configure snap points
    and a snap observer, the snap effect calls [onSnap] once for every
    render whose [isOpen] differs from the previous render's, and makes no
    other call: the first render reports nothing, even when the sheet mounts
    open, and the effect never calls [onClose] or [animate]. *)
Theorem commit_sequence_counts (H0 : Q) (p0 : Props)
  (renders : list (Q * Props)) (w : World)
  (Hall : Forall (fun r => snapPoints (snd r) <> None /\ onSnap (snd r) = true)
                 renders) :
  exists hs' evs,
    commitAll ((H0, p0) :: renders) initialHookState w =
      Returned hs' (mkWorld (y w) (indicatorRotation w) (sheetRef w)
                            (trace w ++ evs)) /\
    length evs = flips (isOpen p0) (map (fun r => isOpen (snd r)) renders) /\
    Forall (fun e => isOnSnap e = true) evs.
Proof.
  simpl commitAll. unfold bind. rewrite commit_first_silent.
  apply (commitAll_mounted renders (isOpen p0)
           (mkHookState true (Some (isOpen p0))) w eq_refl eq_refl Hall).
Qed.

Lemma commit_sequence_counts_witness :
  exists hs' evs,
    commitAll [(0, opening); (800, opening); (800, closing); (800, opening)]
              initialHookState fullyOpen =
      Returned hs' (mkWorld 0 0 (Some 400) evs) /\
    length evs = 2%nat /\
    Forall (fun e => isOnSnap e = true) evs.
Proof.
  apply (commit_sequence_counts 0 opening
           [(800, opening); (800, closing); (800, opening)] fullyOpen).
  repeat constructor; discriminate.
Defined.

Lemma commitAll_steady (renders : list (Q * Props)) (b : bool) :
  forall (hs : HookState) (w : World),
  hs = initialHookState \/ lastIsOpen hs = Some b ->
  Forall (fun r => isOpen (snd r) = b) renders ->
  exists hs', commitAll renders hs w = Returned hs' w.
Proof.
  induction renders as [|[H p] rest IH]; intros hs w Hhs Hall.
  - now exists hs.
  - inversion Hall as [|r rs Hopen Hrest]. simpl in Hopen.
    simpl commitAll. unfold bind.
    assert (Hstep : commit H p hs w =
                    Returned (mkHookState true (Some (isOpen p))) w).
    { destruct Hhs as [->|Hlast].
      - apply commit_first_silent.
      - apply commit_unchanged_silent. now rewrite Hopen. }
    rewrite Hstep. apply IH; [right; simpl; now rewrite Hopen|exact Hrest].
Qed.

(** X13. Whatever the props configure, a sheet whose [isOpen] never changes
    from its first render on never has the snap effect call anything: no
    mount and no re-render alone reports a snap index. *)
Theorem commits_without_toggle (renders : list (Q * Props)) (b : bool)
  (w : World)
  (Hsame : Forall (fun r => isOpen (snd r) = b) renders) :
  exists hs', commitAll renders initialHookState w = Returned hs' w.
Proof.
  apply (commitAll_steady renders b); [left; reflexivity|exact Hsame].
Qed.

Lemma commits_without_toggle_witness :
  exists hs',
    commitAll [(0, opening); (800, opening); (801, openingAtSeven)]
              initialHookState fullyOpen = Returned hs' fullyOpen.
Proof.
  apply (commits_without_toggle
           [(0, opening); (800, opening); (801, openingAtSeven)] true).
  repeat constructor.
Defined.

(** X14. In a window of height [H >= 0] a fractional specification in
    (0, 1] normalises to a height between 0 and [H], and a negative
    specification not below [-H] to a height from 0 up to, but excluding,
    [H]; in a window of height 0 (no window measured yet) every fractional
    specification collapses to 0. *)
Theorem normalize_within_viewport (H v : Q) (HH : 0 <= H) :
  (0 < v -> v <= 1 ->
   0 <= normalizePoint H v /\ normalizePoint H v <= H) /\
  (v < 0 -> - H <= v ->
   0 <= normalizePoint H v /\ normalizePoint H v < H) /\
  (H == 0 -> 0 < v -> v <= 1 -> normalizePoint H v == 0).
Proof.
  split; [|split].
  - intros Hpos Hle. rewrite (normalizePoint_fraction H v Hpos Hle). split.
    + apply Qmult_le_0_compat; [now apply Qlt_le_weak|exact HH].
    + rewrite <- (Qmult_1_l H) at 2. apply Qmult_le_compat_r; assumption.
  - intros Hneg Hlow. rewrite (normalizePoint_negative H v Hneg). split; lra.
  - intros Hzero Hpos Hle. rewrite (normalizePoint_fraction H v Hpos Hle).
    rewrite Hzero. ring.
Qed.

Lemma normalize_within_viewport_witness :
  0 <= normalizePoint 801 (1 # 2) /\ normalizePoint 801 (1 # 2) <= 801.
Proof.
  apply (proj1 (normalize_within_viewport 801 (1 # 2)
                  ltac:(unfold Qle; simpl; lia))).
  - reflexivity.
  - unfold Qle; simpl; lia.
Defined.

(** * The anchor is needed *)


